(** * Mergington High School activities API (src/app.py)

    A shallow embedding of the FastAPI/SQLModel backend: the two tables,
    the unit-of-work session used by every handler, the seeding routine and
    the three data-handling endpoints, followed by the properties of the
    specification. *)

From stdpp Require Import gmap strings list fin_maps.

(** * Data model *)

(** [class Participant(SQLModel, table=True)]: [id] is [Optional[int]], it
    is [None] on a freshly constructed object and filled in by the store. *)
Record Participant := mkParticipant {
  id : option Z;
  email : string;
  activity_name : string
}.

(** [class Activity(SQLModel, table=True)]; the [participants] relationship
    is not a column, it is loaded by [relationship_participants] below. *)
Record Activity := mkActivity {
  name : string;
  description : string;
  schedule : string;
  max_participants : Z
}.

(** The dictionaries with the keys "description", "schedule",
    "max_participants" and "participants", used both for the seed catalog
    and for the values of the mapping built by [activities_as_dict]. *)
Record ActivityDict := mkActivityDict {
  dict_description : string;
  dict_schedule : string;
  dict_max_participants : Z;
  dict_participants : list string
}.

(** The database behind [engine].  A table with a primary key is a finite
    map from the key to the remaining columns: [activity] is keyed by
    [name], [participant] by [id].  Nothing in the schema relates the two
    tables' contents or makes (activity_name, email) unique. *)
Record Store := mkStore {
  activity_table : gmap string (string * string * Z);
  participant_table : gmap Z (string * string)
}.

Definition empty_store : Store := mkStore ∅ ∅.

Definition activity_of_row (r : string * (string * string * Z)) : Activity :=
  match r with
  | (n, (d, s, m)) => mkActivity n d s m
  end.

Definition participant_of_row (r : Z * (string * string)) : Participant :=
  match r with
  | (k, (e, a)) => mkParticipant (Some k) e a
  end.

(** * Exceptions *)

Record HTTPException := mkHTTPException {
  status_code : Z;
  detail : string
}.

(** What a handler can raise: an [HTTPException] of its own, or one of the
    two faults of the persistence layer (inserting a primary key that is
    taken; deleting an object that was never stored). *)
Inductive Exn : Type :=
  | HTTPError (e : HTTPException)
  | IntegrityError
  | InvalidRequestError.

(** * The session: a state and error monad *)

(** [with Session(engine) as session]: the session works on its own view of
    the data; [session.commit()] publishes the view, and leaving the block
    in any other way drops it. *)
Record SessionState := mkSessionState {
  committed : Store;
  working : Store
}.

Definition Sess (A : Type) : Type := SessionState → (Exn + A) * SessionState.

#[global] Instance Sess_ret : MRet Sess := λ A x st, (inr x, st).

#[global] Instance Sess_bind : MBind Sess := λ A B f m st,
  match m st with
  | (inl e, st') => (inl e, st')
  | (inr x, st') => f x st'
  end.

Definition raise {A : Type} (e : Exn) : Sess A := λ st, (inl e, st).

Definition with_session {A : Type} (body : Sess A) (db : Store)
  : (Exn + A) * Store :=
  match body (mkSessionState db db) with
  | (r, st) => (r, committed st)
  end.

(** [for x in xs: body], where the body updates the local [acc]. *)
Fixpoint for_fold {A B : Type} (xs : list A) (acc : B) (body : B → A → Sess B)
  : Sess B :=
  match xs with
  | [] => mret acc
  | x :: xs' => acc' ← body acc x; for_fold xs' acc' body
  end.

(** [for x in xs: body] *)
Definition for_each {A : Type} (xs : list A) (body : A → Sess ()) : Sess () :=
  for_fold xs () (λ _ x, body x).

(** ** Queries *)

(** [session.exec(select(Activity)).all()] *)
Definition select_activity_all : Sess (list Activity) := λ st,
  (inr (activity_of_row <$> map_to_list (activity_table (working st))), st).

(** [session.exec(select(Activity)).first()] *)
Definition select_activity_first : Sess (option Activity) :=
  rows ← select_activity_all; mret (head rows).

(** [session.get(Activity, n)] *)
Definition session_get_activity (n : string) : Sess (option Activity) := λ st,
  (inr ((λ c, activity_of_row (n, c)) <$> activity_table (working st) !! n), st).

(** The rows of the [participant] table as objects, in the order in which
    the store scans them. *)
Definition participant_rows (db : Store) : list Participant :=
  participant_of_row <$> map_to_list (participant_table db).

(** [session.exec(select(Participant).where(cond)).all()] *)
Definition select_participant_where (cond : Participant → bool)
  : Sess (list Participant) := λ st,
  (inr (filter (λ p, cond p = true) (participant_rows (working st))), st).

(** [session.exec(select(Participant).where(cond)).first()] *)
Definition select_participant_where_first (cond : Participant → bool)
  : Sess (option Participant) :=
  rows ← select_participant_where cond; mret (head rows).

(** [a.participants]: the relationship over the foreign key
    [participant.activity_name = activity.name], loaded on access. *)
Definition relationship_participants (a : Activity) : Sess (list Participant) :=
  select_participant_where (λ p, bool_decide (activity_name p = name a)).

(** ** Updates *)

(** The row id the store gives to a new participant: 1 in an empty table,
    otherwise one more than the largest one in use. *)
Definition next_rowid (t : gmap Z (string * string)) : Z :=
  match (map_to_list t).*1 with
  | [] => 1%Z
  | k :: ks => (1 + foldr Z.max k ks)%Z
  end.

(** [session.add(a)] for an [Activity]: an INSERT, refused when the primary
    key is taken. *)
Definition session_add_activity (a : Activity) : Sess () := λ st,
  let w := working st in
  match activity_table w !! name a with
  | Some _ => (inl IntegrityError, st)
  | None =>
      (inr (),
       mkSessionState (committed st)
         (mkStore
            (<[name a := (description a, schedule a, max_participants a)]>
               (activity_table w))
            (participant_table w)))
  end.

(** [session.add(p)] for a [Participant]: an INSERT; without an [id] the
    store generates one. *)
Definition session_add_participant (p : Participant) : Sess () := λ st,
  let w := working st in
  let insert_at (k : Z) :=
    mkSessionState (committed st)
      (mkStore (activity_table w)
         (<[k := (email p, activity_name p)]> (participant_table w))) in
  match id p with
  | None => (inr (), insert_at (next_rowid (participant_table w)))
  | Some k =>
      match participant_table w !! k with
      | Some _ => (inl IntegrityError, st)
      | None => (inr (), insert_at k)
      end
  end.

(** [session.delete(p)]: a DELETE by primary key. *)
Definition session_delete_participant (p : Participant) : Sess () := λ st,
  let w := working st in
  match id p with
  | None => (inl InvalidRequestError, st)
  | Some k =>
      (inr (),
       mkSessionState (committed st)
         (mkStore (activity_table w) (delete k (participant_table w))))
  end.

(** [session.commit()] *)
Definition session_commit : Sess () := λ st,
  (inr (), mkSessionState (working st) (working st)).

(** * The application *)

(** The [seed] dictionary of [init_db_with_seed], in insertion order. *)
Definition seed : list (string * ActivityDict) := [
  ("Chess Club",
   mkActivityDict "Learn strategies and compete in chess tournaments"
     "Fridays, 3:30 PM - 5:00 PM" 12
     ["michael@mergington.edu"; "daniel@mergington.edu"]);
  ("Programming Class",
   mkActivityDict "Learn programming fundamentals and build software projects"
     "Tuesdays and Thursdays, 3:30 PM - 4:30 PM" 20
     ["emma@mergington.edu"; "sophia@mergington.edu"]);
  ("Gym Class",
   mkActivityDict "Physical education and sports activities"
     "Mondays, Wednesdays, Fridays, 2:00 PM - 3:00 PM" 30
     ["john@mergington.edu"; "olivia@mergington.edu"]);
  ("Soccer Team",
   mkActivityDict "Join the school soccer team and compete in matches"
     "Tuesdays and Thursdays, 4:00 PM - 5:30 PM" 22
     ["liam@mergington.edu"; "noah@mergington.edu"]);
  ("Basketball Team",
   mkActivityDict "Practice and play basketball with the school team"
     "Wednesdays and Fridays, 3:30 PM - 5:00 PM" 15
     ["ava@mergington.edu"; "mia@mergington.edu"]);
  ("Art Club",
   mkActivityDict "Explore your creativity through painting and drawing"
     "Thursdays, 3:30 PM - 5:00 PM" 15
     ["amelia@mergington.edu"; "harper@mergington.edu"]);
  ("Drama Club",
   mkActivityDict "Act, direct, and produce plays and performances"
     "Mondays and Wednesdays, 4:00 PM - 5:30 PM" 20
     ["ella@mergington.edu"; "scarlett@mergington.edu"]);
  ("Math Club",
   mkActivityDict "Solve challenging problems and participate in math competitions"
     "Tuesdays, 3:30 PM - 4:30 PM" 10
     ["james@mergington.edu"; "benjamin@mergington.edu"]);
  ("Debate Team",
   mkActivityDict "Develop public speaking and argumentation skills"
     "Fridays, 4:00 PM - 5:30 PM" 12
     ["charlotte@mergington.edu"; "henry@mergington.edu"])
].

(** The body of the [for name, data in seed.items()] loop. *)
Definition seed_one (item : string * ActivityDict) : Sess () :=
  let (n, data) := item in
  _ ← session_add_activity
        (mkActivity n (dict_description data) (dict_schedule data)
           (dict_max_participants data));
  for_each (dict_participants data)
    (λ e, session_add_participant (mkParticipant None e n)).

(** [init_db_with_seed]; [create_all] only creates missing tables and is
    not modelled. *)
Definition init_db_with_seed (db : Store) : (Exn + ()) * Store :=
  with_session
    (first ← select_activity_first;
     match first with
     | Some _ => mret ()
     | None => _ ← for_each seed seed_one; session_commit
     end) db.

(** [activities_as_dict] *)
Definition activities_as_dict (db : Store)
  : (Exn + gmap string ActivityDict) * Store :=
  with_session
    (activities ← select_activity_all;
     for_fold activities ∅
       (λ result a,
          ps ← relationship_participants a;
          let emails := email <$> ps in
          mret (<[name a := mkActivityDict (description a) (schedule a)
                               (max_participants a) emails]> result))) db.

(** [GET /activities] *)
Definition get_activities (db : Store)
  : (Exn + gmap string ActivityDict) * Store :=
  activities_as_dict db.

(** The JSON object [{"message": ...}] returned by the two mutating
    handlers. *)
Record Message := mkMessage { message : string }.

Definition same_pair (a e : string) (p : Participant) : bool :=
  bool_decide (activity_name p = a) && bool_decide (email p = e).

(** [POST /activities/{activity_name}/signup] *)
Definition signup_for_activity (a e : string) (db : Store)
  : (Exn + Message) * Store :=
  with_session
    (activity ← session_get_activity a;
     match activity with
     | None => raise (HTTPError (mkHTTPException 404 "Activity not found"))
     | Some _ =>
         existing ← select_participant_where_first (same_pair a e);
         match existing with
         | Some _ =>
             raise (HTTPError (mkHTTPException 400 "Student is already signed up"))
         | None =>
             _ ← session_add_participant (mkParticipant None e a);
             _ ← session_commit;
             mret (mkMessage ("Signed up " +:+ e +:+ " for " +:+ a))
         end
     end) db.

(** [DELETE /activities/{activity_name}/unregister] *)
Definition unregister_from_activity (a e : string) (db : Store)
  : (Exn + Message) * Store :=
  with_session
    (activity ← session_get_activity a;
     match activity with
     | None => raise (HTTPError (mkHTTPException 404 "Activity not found"))
     | Some _ =>
         participant ← select_participant_where_first (same_pair a e);
         match participant with
         | None =>
             raise (HTTPError
                      (mkHTTPException 400
                         "Student is not signed up for this activity"))
         | Some p =>
             _ ← session_delete_participant p;
             _ ← session_commit;
             mret (mkMessage ("Unregistered " +:+ e +:+ " from " +:+ a))
         end
     end) db.

(** * Vocabulary of the specification *)

(** The store a first start-up leaves behind. *)
Definition seeded : Store := (init_db_with_seed empty_store).2.

Definition activity_exists (db : Store) (a : string) : Prop :=
  is_Some (activity_table db !! a).

(** There is a Participant row for the pair (a, e). *)
Definition registered (db : Store) (a e : string) : Prop :=
  ∃ k, participant_table db !! k = Some (e, a).

(** [e] is in the participant list that list-activities reports for [a]. *)
Definition listed (db : Store) (a e : string) : Prop :=
  ∃ r info, get_activities db = (inr r, db) ∧ r !! a = Some info ∧
            e ∈ dict_participants info.

(** Every participant row names an existing activity. *)
Definition referential_integrity (db : Store) : Prop :=
  ∀ k e a, participant_table db !! k = Some (e, a) → activity_exists db a.

(** No two participant rows carry the same (activity_name, email). *)
Definition pair_unique (db : Store) : Prop :=
  ∀ k1 k2 e a,
    participant_table db !! k1 = Some (e, a) →
    participant_table db !! k2 = Some (e, a) → k1 = k2.

(** The set of (activity_name, email) pairs of the participant table. *)
Definition registrations (db : Store) : gset (string * string) :=
  list_to_set ((λ r, (r.2.2, r.2.1)) <$> map_to_list (participant_table db)).

(** The emails of the participant rows of activity [a]. *)
Definition emails_of (db : Store) (a : string) : list string :=
  email <$> filter (λ p, activity_name p = a) (participant_rows db).

(** What list-activities reports for the activity row [(n, c)]. *)
Definition activity_dict_of (db : Store) (n : string) (c : string * string * Z)
  : ActivityDict :=
  mkActivityDict c.1.1 c.1.2 c.2 (emails_of db n).

(** The number of participant rows of activity [a]. *)
Definition participant_count (db : Store) (a : string) : Z :=
  Z.of_nat (length (filter (λ p, activity_name p = a) (participant_rows db))).

(** The store with the capacity of every activity replaced by [f] of it. *)
Definition map_capacity (f : Z → Z) (db : Store) : Store :=
  mkStore ((λ c, (c.1, f c.2)) <$> activity_table db) (participant_table db).

(** Requests served one after the other. *)
Inductive Request : Type :=
  | Signup (a e : string)
  | Unregister (a e : string)
  | ListActivities.

Definition serve (r : Request) (db : Store) : Store :=
  match r with
  | Signup a e => (signup_for_activity a e db).2
  | Unregister a e => (unregister_from_activity a e db).2
  | ListActivities => (get_activities db).2
  end.

Inductive reachable : Store → Prop :=
  | reachable_seeded : reachable seeded
  | reachable_serve r db : reachable db → reachable (serve r db).

(** ** Small stores used as concrete inputs *)

(** One activity of capacity 1 with one participant: nominally full. *)
Definition full_store : Store :=
  mkStore {["Chess Club" := ("Chess", "Fridays", 1%Z)]}
          {[1%Z := ("michael@mergington.edu", "Chess Club")]}.

(** The same student stored twice for one activity, as two concurrent
    signups can leave it. *)
Definition twice_store : Store :=
  mkStore {["Chess Club" := ("Chess", "Fridays", 12%Z)]}
          (<[2%Z := ("michael@mergington.edu", "Chess Club")]>
             {[1%Z := ("michael@mergington.edu", "Chess Club")]}).

(** A participant row whose activity is not in the activity table. *)
Definition orphan_store : Store :=
  mkStore ∅ {[1%Z := ("michael@mergington.edu", "Chess Club")]}.

Definition not_found : Exn :=
  HTTPError (mkHTTPException 404 "Activity not found").

Definition already_registered : Exn :=
  HTTPError (mkHTTPException 400 "Student is already signed up").

Definition not_registered : Exn :=
  HTTPError (mkHTTPException 400 "Student is not signed up for this activity").

(** * Start-up, event sequences and the catalog *)

(** [on_startup], the handler of the application's "startup" event. *)
Definition on_startup (db : Store) : (Exn + ()) * Store :=
  init_db_with_seed db.

(** The participant list that [GET /activities] reports under the key [b];
    [None] when [b] is not a key of the mapping. *)
Definition listing (db : Store) (b : string) : option (list string) :=
  match (get_activities db).1 with
  | inr r => dict_participants <$> r !! b
  | inl _ => None
  end.

(** Both invariants of the data model together. *)
Definition consistent (db : Store) : Prop :=
  referential_integrity db ∧ pair_unique db.

(** What happens to a running deployment: the process (re)starts, or a
    request is served. *)
Inductive Event : Type :=
  | Startup
  | Serve (r : Request).

Definition step (ev : Event) (db : Store) : Store :=
  match ev with
  | Startup => (on_startup db).2
  | Serve r => serve r db
  end.

Definition run (evs : list Event) (db : Store) : Store :=
  foldl (λ d ev, step ev d) db evs.

(** The columns stored for a catalog entry. *)
Definition seed_columns (data : ActivityDict) : string * string * Z :=
  (dict_description data, dict_schedule data, dict_max_participants data).

(** The (email, activity_name) rows of a catalog, in seeding order. *)
Definition seed_pairs (items : list (string * ActivityDict))
  : list (string * string) :=
  items ≫= λ item, (λ e, (e, item.1)) <$> dict_participants item.2.

(** Inserting rows one after the other, each under the id the store
    generates for it. *)
Definition insert_rows (rs : list (string * string))
    (t : gmap Z (string * string)) : gmap Z (string * string) :=
  foldl (λ t' r, <[next_rowid t' := r]> t') t rs.

(** The (activity_name, email) pair a request is about, if any. *)
Definition request_pair (r : Request) : option (string * string) :=
  match r with
  | Signup a e => Some (a, e)
  | Unregister a e => Some (a, e)
  | ListActivities => None
  end.

(** * Facts about the store *)

Section store_facts.
Implicit Types (db : Store) (a e : string) (k : Z) (p : Participant).

Lemma foldr_max_bound (ks : list Z) (k0 k : Z) :
  k ∈ k0 :: ks → (k ≤ foldr Z.max k0 ks)%Z.
Proof.
  induction ks as [|k' ks IH]; simpl; intros Hk.
  - apply list_elem_of_singleton in Hk. lia.
  - assert (k = k' ∨ k ∈ k0 :: ks) as [->|Hin].
    { rewrite !elem_of_cons in Hk. rewrite elem_of_cons. tauto. }
    + lia.
    + specialize (IH Hin). lia.
Qed.

Lemma next_rowid_fresh (t : gmap Z (string * string)) :
  t !! next_rowid t = None.
Proof.
  destruct (t !! next_rowid t) as [r|] eqn:Hr; [|done].
  apply elem_of_map_to_list in Hr.
  assert (next_rowid t ∈ (map_to_list t).*1) as Hin.
  { apply list_elem_of_fmap. by exists (next_rowid t, r). }
  clear Hr. unfold next_rowid in Hin.
  destruct ((map_to_list t).*1) as [|k ks]; [by apply elem_of_nil in Hin|].
  apply foldr_max_bound in Hin. lia.
Qed.

Lemma elem_of_participant_rows db p :
  p ∈ participant_rows db ↔
  ∃ k, id p = Some k ∧ participant_table db !! k = Some (email p, activity_name p).
Proof.
  unfold participant_rows. rewrite list_elem_of_fmap. split.
  - intros [[k [e a]] [-> Hin]]. exists k.
    by apply elem_of_map_to_list in Hin.
  - intros [k [Hid Hk]]. exists (k, (email p, activity_name p)). split.
    + destruct p as [i e a]. simpl in *. by subst i.
    + by apply elem_of_map_to_list.
Qed.

Lemma same_pair_true a e p :
  same_pair a e p = true ↔ activity_name p = a ∧ email p = e.
Proof.
  unfold same_pair.
  rewrite andb_true_iff, !bool_decide_eq_true. done.
Qed.

Lemma first_same_pair_Some db a e p :
  head (filter (λ p, same_pair a e p = true) (participant_rows db)) = Some p →
  ∃ k, p = mkParticipant (Some k) e a ∧ participant_table db !! k = Some (e, a).
Proof.
  intros Hhead. apply head_Some_elem_of in Hhead.
  apply list_elem_of_filter in Hhead as [Hpair Hin].
  apply same_pair_true in Hpair as [<- <-].
  apply elem_of_participant_rows in Hin as [k [Hid Hk]].
  exists k. split; [|done]. destruct p; simpl in *; by subst.
Qed.

Lemma first_same_pair_None db a e :
  head (filter (λ p, same_pair a e p = true) (participant_rows db)) = None ↔
  ¬ registered db a e.
Proof.
  rewrite head_None. split.
  - intros Hnil [k Hk].
    apply (filter_nil_not_elem_of _ _ (mkParticipant (Some k) e a)) in Hnil.
    + apply Hnil, elem_of_participant_rows. by exists k.
    + by apply same_pair_true.
  - intros Hnot.
    destruct (filter _ _) as [|p l] eqn:Hf; [done|]. exfalso. apply Hnot.
    assert (head (filter (λ p, same_pair a e p = true) (participant_rows db))
            = Some p) as Hhead by by rewrite Hf.
    apply first_same_pair_Some in Hhead as [k [_ Hk]]. by exists k.
Qed.

(** The handlers, with the session unfolded. *)
Lemma signup_for_activity_unfold a e db :
  signup_for_activity a e db =
  match activity_table db !! a with
  | None => (inl not_found, db)
  | Some _ =>
      match head (filter (λ p, same_pair a e p = true) (participant_rows db)) with
      | Some _ => (inl already_registered, db)
      | None =>
          (inr (mkMessage ("Signed up " +:+ e +:+ " for " +:+ a)),
           mkStore (activity_table db)
             (<[next_rowid (participant_table db) := (e, a)]>
                (participant_table db)))
      end
  end.
Proof.
  unfold signup_for_activity, with_session, mbind, Sess_bind,
    session_get_activity, select_participant_where_first,
    select_participant_where, mbind, Sess_bind, mret, Sess_ret; simpl.
  destruct (activity_table db !! a); simpl; [|done].
  by destruct (head _).
Qed.

Lemma unregister_from_activity_unfold a e db :
  unregister_from_activity a e db =
  match activity_table db !! a with
  | None => (inl not_found, db)
  | Some _ =>
      match head (filter (λ p, same_pair a e p = true) (participant_rows db)) with
      | None => (inl not_registered, db)
      | Some p =>
          match id p with
          | None => (inl InvalidRequestError, db)
          | Some k =>
              (inr (mkMessage ("Unregistered " +:+ e +:+ " from " +:+ a)),
               mkStore (activity_table db) (delete k (participant_table db)))
          end
      end
  end.
Proof.
  unfold unregister_from_activity, with_session, mbind, Sess_bind,
    session_get_activity, select_participant_where_first,
    select_participant_where, mbind, Sess_bind, mret, Sess_ret; simpl.
  destruct (activity_table db !! a); simpl; [|done].
  destruct (head _) as [row|]; simpl; [|done].
  unfold session_delete_participant. by destruct (id row).
Qed.

Lemma unregister_deletes_row a e db :
  activity_exists db a →
  registered db a e →
  ∃ k,
    participant_table db !! k = Some (e, a) ∧
    unregister_from_activity a e db =
      (inr (mkMessage ("Unregistered " +:+ e +:+ " from " +:+ a)),
       mkStore (activity_table db) (delete k (participant_table db))).
Proof.
  intros [c Hc] Hreg. rewrite unregister_from_activity_unfold, Hc.
  destruct (head _) as [row|] eqn:Hhead.
  - apply first_same_pair_Some in Hhead as [k [-> Hk]]. by exists k.
  - by apply first_same_pair_None in Hhead.
Qed.

End store_facts.

(** * Listing the activities *)

Section listing.
Implicit Types (db : Store) (a e n : string).

Lemma relationship_participants_emails (act : Activity) (st : SessionState) :
  relationship_participants act st =
  (inr (filter (λ p, activity_name p = name act) (participant_rows (working st))),
   st).
Proof.
  unfold relationship_participants, select_participant_where.
  do 2 f_equal. apply list_filter_iff. intros p.
  by rewrite bool_decide_eq_true.
Qed.

(** The loop of [activities_as_dict] neither fails nor touches the session. *)
Lemma activities_loop_pure (acts : list Activity) (acc : gmap string ActivityDict)
    (st : SessionState) :
  for_fold acts acc
    (λ result act,
       ps ← relationship_participants act;
       mret (<[name act := mkActivityDict (description act) (schedule act)
                             (max_participants act) (email <$> ps)]> result)) st =
  (inr (foldl
          (λ result act,
             <[name act := mkActivityDict (description act) (schedule act)
                             (max_participants act)
                             (emails_of (working st) (name act))]> result)
          acc acts),
   st).
Proof.
  revert acc. induction acts as [|act acts IH]; intros acc; [done|].
  simpl. unfold mbind at 1, Sess_bind at 1.
  unfold mbind at 1, Sess_bind at 1.
  rewrite relationship_participants_emails. simpl. apply IH.
Qed.

Lemma foldl_insert_rows_lookup db (rows : list (string * (string * string * Z)))
    (acc : gmap string ActivityDict) n :
  NoDup rows.*1 →
  foldl
    (λ result act,
       <[name act := mkActivityDict (description act) (schedule act)
                       (max_participants act) (emails_of db (name act))]> result)
    acc (activity_of_row <$> rows) !! n =
  match (list_to_map rows : gmap string (string * string * Z)) !! n with
  | Some c => Some (activity_dict_of db n c)
  | None => acc !! n
  end.
Proof.
  revert acc. induction rows as [|[n0 [[d s] m]] rows IH]; intros acc Hnd.
  - simpl. by rewrite lookup_empty.
  - apply NoDup_cons in Hnd as [Hn0 Hnd]. simpl.
    rewrite (IH _ Hnd). destruct (decide (n0 = n)) as [->|Hne].
    + rewrite lookup_insert_eq.
      rewrite (not_elem_of_list_to_map_1 _ _ Hn0).
      by rewrite lookup_insert_eq.
    + rewrite !lookup_insert_ne by done. done.
Qed.

Lemma activities_as_dict_eq db :
  activities_as_dict db =
  (inr (map_imap (λ n c, Some (activity_dict_of db n c)) (activity_table db)),
   db).
Proof.
  unfold activities_as_dict, with_session.
  unfold mbind at 1, Sess_bind at 1. unfold select_activity_all at 1.
  rewrite activities_loop_pure. simpl. do 2 f_equal.
  apply map_eq. intros n.
  rewrite foldl_insert_rows_lookup by apply NoDup_fst_map_to_list.
  rewrite list_to_map_to_list, map_lookup_imap, lookup_empty.
  by destruct (activity_table db !! n).
Qed.

Lemma elem_of_emails_of db a e : e ∈ emails_of db a ↔ registered db a e.
Proof.
  unfold emails_of, registered. rewrite list_elem_of_fmap. split.
  - intros [p [-> Hp]]. apply list_elem_of_filter in Hp as [<- Hp].
    apply elem_of_participant_rows in Hp as [k [_ Hk]]. by exists k.
  - intros [k Hk]. exists (mkParticipant (Some k) e a). split; [done|].
    apply list_elem_of_filter. split; [done|].
    apply elem_of_participant_rows. by exists k.
Qed.

Lemma listed_iff db a e :
  listed db a e ↔ activity_exists db a ∧ registered db a e.
Proof.
  unfold listed, get_activities, activity_exists.
  rewrite activities_as_dict_eq. split.
  - intros (r & info & Heq & Hinfo & He). injection Heq as <-.
    rewrite map_lookup_imap in Hinfo.
    destruct (activity_table db !! a) as [c|]; [|done].
    simpl in Hinfo. injection Hinfo as <-. simpl in He.
    split; [by eexists|]. by apply elem_of_emails_of.
  - intros [[c Hc] Hreg]. eexists _, (activity_dict_of db a c).
    split; [done|]. rewrite map_lookup_imap, Hc. split; [done|].
    by apply elem_of_emails_of.
Qed.

End listing.

(** * Signing up *)

(** C1: for every store, every activity [a] that exists in it and every
    email [e] without a Participant row for (a, e), signup succeeds, inserts
    exactly one new Participant row (under an id [k] that was free) carrying
    that email and activity name, answers "Signed up {email} for
    {activity_name}", and [e] is afterwards in the participant list that
    list-activities reports for [a]. *)
Theorem signup_new_succeeds (db : Store) (a e : string) :
  activity_exists db a →
  ¬ registered db a e →
  ∃ k,
    participant_table db !! k = None ∧
    signup_for_activity a e db =
      (inr (mkMessage ("Signed up " +:+ e +:+ " for " +:+ a)),
       mkStore (activity_table db) (<[k := (e, a)]> (participant_table db))) ∧
    listed (signup_for_activity a e db).2 a e.
Proof.
  intros [c Hc] Hnew. exists (next_rowid (participant_table db)).
  split; [apply next_rowid_fresh|].
  rewrite signup_for_activity_unfold, Hc.
  apply first_same_pair_None in Hnew. rewrite Hnew.
  split; [done|]. simpl. apply listed_iff. split.
  - by exists c.
  - exists (next_rowid (participant_table db)). simpl.
    apply lookup_insert_eq.
Qed.

Lemma signup_new_succeeds_witness :
  ∃ k,
    participant_table seeded !! k = None ∧
    signup_for_activity "Chess Club" "new@mergington.edu" seeded =
      (inr (mkMessage "Signed up new@mergington.edu for Chess Club"),
       mkStore (activity_table seeded)
         (<[k := ("new@mergington.edu", "Chess Club")]>
            (participant_table seeded))) ∧
    listed (signup_for_activity "Chess Club" "new@mergington.edu" seeded).2
      "Chess Club" "new@mergington.edu".
Proof.
  apply (signup_new_succeeds seeded "Chess Club" "new@mergington.edu").
  - vm_compute. eexists. reflexivity.
  - apply first_same_pair_None. vm_compute. reflexivity.
Defined.

(** C2: when [a] exists and a Participant row for (a, e) is already there,
    signup fails with HTTP 400 "Student is already signed up" and leaves the
    store as it was; in particular a second signup right after a successful
    one fails in this way, and list-activities reports the same lists (so
    the same sizes) after it as before it. *)
Theorem signup_duplicate_rejected (db : Store) (a e : string) :
  (activity_exists db a → registered db a e →
   signup_for_activity a e db =
     (inl (HTTPError (mkHTTPException 400 "Student is already signed up")), db)) ∧
  (∀ m db1,
     signup_for_activity a e db = (inr m, db1) →
     signup_for_activity a e db1 =
       (inl (HTTPError (mkHTTPException 400 "Student is already signed up")),
        db1) ∧
     get_activities (signup_for_activity a e db1).2 = get_activities db1).
Proof.
  assert (∀ db', activity_exists db' a → registered db' a e →
            signup_for_activity a e db' = (inl already_registered, db'))
    as Hdup.
  { intros db' [c Hc] Hreg. rewrite signup_for_activity_unfold, Hc.
    destruct (head _) eqn:Hhead; [done|].
    by apply first_same_pair_None in Hhead. }
  split; [apply Hdup|]. intros m db1 Hfirst.
  assert (signup_for_activity a e db1 = (inl already_registered, db1)) as H2.
  { apply Hdup.
    - rewrite signup_for_activity_unfold in Hfirst. unfold activity_exists.
      destruct (activity_table db !! a) as [c|] eqn:Hc; [|done].
      destruct (head _); [done|]. injection Hfirst as _ <-. simpl. by exists c.
    - rewrite signup_for_activity_unfold in Hfirst.
      destruct (activity_table db !! a); [|done].
      destruct (head _); [done|]. injection Hfirst as _ <-.
      exists (next_rowid (participant_table db)). simpl.
      apply lookup_insert_eq. }
  split; [exact H2|]. by rewrite H2.
Qed.

Lemma signup_duplicate_rejected_witness :
  signup_for_activity "Chess Club" "michael@mergington.edu" seeded =
    (inl (HTTPError (mkHTTPException 400 "Student is already signed up")),
     seeded) ∧
  signup_for_activity "Chess Club" "new@mergington.edu"
    (signup_for_activity "Chess Club" "new@mergington.edu" seeded).2 =
    (inl (HTTPError (mkHTTPException 400 "Student is already signed up")),
     (signup_for_activity "Chess Club" "new@mergington.edu" seeded).2).
Proof.
  split.
  - apply (signup_duplicate_rejected seeded "Chess Club" "michael@mergington.edu").
    + vm_compute. eexists. reflexivity.
    + exists 1%Z. vm_compute. reflexivity.
  - eapply (signup_duplicate_rejected seeded "Chess Club" "new@mergington.edu").
    vm_compute. reflexivity.
Defined.

(** C5: when no activity is named [a], signup fails with HTTP 404 "Activity
    not found" for every email and leaves the store as it was; the answer
    does not depend on whether a row for (a, e) exists, the lookup of the
    activity comes first. *)
Theorem signup_unknown_activity (db : Store) (a e : string) :
  activity_table db !! a = None →
  signup_for_activity a e db =
    (inl (HTTPError (mkHTTPException 404 "Activity not found")), db).
Proof.
  intros Hnone. by rewrite signup_for_activity_unfold, Hnone.
Qed.

Lemma signup_unknown_activity_witness :
  registered orphan_store "Chess Club" "michael@mergington.edu" ∧
  signup_for_activity "Chess Club" "michael@mergington.edu" orphan_store =
    (inl (HTTPError (mkHTTPException 404 "Activity not found")), orphan_store).
Proof.
  split.
  - exists 1%Z. vm_compute. reflexivity.
  - apply (signup_unknown_activity orphan_store). vm_compute. reflexivity.
Defined.

(** * Listing *)

(** C3: list-activities never fails and changes nothing; the keys of the
    mapping it returns are exactly the names of the Activity rows; each
    activity maps to its description, schedule and max_participants and to
    a participant list whose members are exactly the emails of the
    Participant rows with that activity_name; on the empty store the mapping
    is empty. *)
Theorem get_activities_exact (db : Store) :
  ∃ r,
    get_activities db = (inr r, db) ∧
    dom r = dom (activity_table db) ∧
    (∀ n d s m,
       activity_table db !! n = Some (d, s, m) →
       ∃ ps, r !! n = Some (mkActivityDict d s m ps) ∧
             ∀ e, e ∈ ps ↔ registered db n e) ∧
    (db = empty_store → r = ∅).
Proof.
  eexists. split; [apply activities_as_dict_eq|]. split; [|split].
  - apply set_eq. intros n. rewrite !elem_of_dom, map_lookup_imap.
    destruct (activity_table db !! n); simpl;
      split; intros [? ?]; by eauto.
  - intros n d s m Hn. exists (emails_of db n).
    rewrite map_lookup_imap, Hn. split; [done|].
    intros e. apply elem_of_emails_of.
  - intros ->. simpl. apply map_imap_empty.
Qed.

Lemma get_activities_exact_witness :
  ∃ r,
    get_activities full_store = (inr r, full_store) ∧
    (∃ ps, r !! "Chess Club" = Some (mkActivityDict "Chess" "Fridays" 1 ps) ∧
           ∀ e, e ∈ ps ↔ registered full_store "Chess Club" e) ∧
    (get_activities empty_store).1 = inr ∅.
Proof.
  destruct (get_activities_exact full_store) as (r & Hr & _ & Hrow & _).
  exists r. split; [exact Hr|]. split.
  - apply Hrow. vm_compute. reflexivity.
  - destruct (get_activities_exact empty_store) as (r0 & Hr0 & _ & _ & Hempty).
    rewrite Hr0. simpl. f_equal. apply Hempty. reflexivity.
Defined.

(** * Unregistering *)

(** C6: when [a] exists and there is no Participant row for (a, e),
    unregister fails with HTTP 400 "Student is not signed up for this
    activity" and leaves the store as it was; when [a] does not exist the
    answer is HTTP 404 "Activity not found" whatever the participant table
    holds, so the activity is looked up first. *)
Theorem unregister_not_registered (db : Store) (a e : string) :
  (activity_exists db a → ¬ registered db a e →
   unregister_from_activity a e db =
     (inl (HTTPError
             (mkHTTPException 400 "Student is not signed up for this activity")),
      db)) ∧
  (activity_table db !! a = None →
   unregister_from_activity a e db =
     (inl (HTTPError (mkHTTPException 404 "Activity not found")), db)).
Proof.
  rewrite unregister_from_activity_unfold. split.
  - intros [c Hc] Hnot. rewrite Hc.
    apply first_same_pair_None in Hnot. by rewrite Hnot.
  - by intros ->.
Qed.

Lemma unregister_not_registered_witness :
  unregister_from_activity "Chess Club" "new@mergington.edu" full_store =
    (inl (HTTPError
            (mkHTTPException 400 "Student is not signed up for this activity")),
     full_store) ∧
  registered orphan_store "Chess Club" "michael@mergington.edu" ∧
  unregister_from_activity "Chess Club" "michael@mergington.edu" orphan_store =
    (inl (HTTPError (mkHTTPException 404 "Activity not found")), orphan_store).
Proof.
  split; [|split].
  - apply (unregister_not_registered full_store "Chess Club" "new@mergington.edu").
    + vm_compute. eexists. reflexivity.
    + apply first_same_pair_None. vm_compute. reflexivity.
  - exists 1%Z. vm_compute. reflexivity.
  - apply (unregister_not_registered orphan_store "Chess Club"
             "michael@mergington.edu").
    vm_compute. reflexivity.
Defined.

(** C4, as amended: when [a] exists and a Participant row for (a, e) exists,
    unregister succeeds, deletes exactly one row, a row [k] that carries
    (a, e), and no other, and answers "Unregistered {email} from
    {activity_name}"; afterwards [e] is absent from the participant list of
    [a] exactly when [k] was the only row for (a, e). *)
Theorem unregister_registered_succeeds (db : Store) (a e : string) :
  activity_exists db a →
  registered db a e →
  ∃ k,
    participant_table db !! k = Some (e, a) ∧
    unregister_from_activity a e db =
      (inr (mkMessage ("Unregistered " +:+ e +:+ " from " +:+ a)),
       mkStore (activity_table db) (delete k (participant_table db))) ∧
    (¬ listed (unregister_from_activity a e db).2 a e ↔
     ∀ k', participant_table db !! k' = Some (e, a) → k' = k).
Proof.
  intros Hact Hreg.
  destruct (unregister_deletes_row a e db Hact Hreg) as (k & Hk & ->).
  destruct Hact as [c Hc]. exists k. split; [done|]. split; [done|].
  rewrite listed_iff. unfold activity_exists, registered. simpl. split.
  - intros Hnot k' Hk'. destruct (decide (k' = k)) as [|Hne]; [done|].
    exfalso. apply Hnot. split; [by exists c|]. exists k'.
    by rewrite lookup_delete_ne.
  - intros Honly [_ [k' Hk']].
    apply lookup_delete_Some in Hk' as [Hne Hk']. by apply Hne, eq_sym, Honly.
Qed.

Lemma unregister_registered_succeeds_witness :
  ∃ k,
    participant_table seeded !! k = Some ("michael@mergington.edu", "Chess Club") ∧
    unregister_from_activity "Chess Club" "michael@mergington.edu" seeded =
      (inr (mkMessage "Unregistered michael@mergington.edu from Chess Club"),
       mkStore (activity_table seeded) (delete k (participant_table seeded))) ∧
    (¬ listed
         (unregister_from_activity "Chess Club" "michael@mergington.edu" seeded).2
         "Chess Club" "michael@mergington.edu" ↔
     ∀ k', participant_table seeded !! k' =
             Some ("michael@mergington.edu", "Chess Club") → k' = k).
Proof.
  apply (unregister_registered_succeeds seeded "Chess Club"
           "michael@mergington.edu").
  - vm_compute. eexists. reflexivity.
  - exists 1%Z. vm_compute. reflexivity.
Defined.

(** C4, as stated, fails when a pair is stored twice: both hypotheses hold
    in [twice_store] and unregister succeeds, yet the email is still in the
    list that list-activities reports afterwards. *)
Lemma unregister_duplicate_still_listed :
  activity_exists twice_store "Chess Club" ∧
  registered twice_store "Chess Club" "michael@mergington.edu" ∧
  (unregister_from_activity "Chess Club" "michael@mergington.edu" twice_store).1 =
    inr (mkMessage "Unregistered michael@mergington.edu from Chess Club") ∧
  listed
    (unregister_from_activity "Chess Club" "michael@mergington.edu" twice_store).2
    "Chess Club" "michael@mergington.edu".
Proof.
  split; [|split; [|split]].
  - vm_compute. eexists. reflexivity.
  - exists 1%Z. vm_compute. reflexivity.
  - vm_compute. reflexivity.
  - apply listed_iff. split.
    + vm_compute. eexists. reflexivity.
    + exists 1%Z. vm_compute. reflexivity.
Qed.

(** * Seeding *)

Section seeding.
Implicit Types (st : SessionState) (n e : string).

Lemma for_each_cons {A : Type} (x : A) (xs : list A) (body : A → Sess ()) st :
  for_each (x :: xs) body st =
  match body x st with
  | (inl e, st') => (inl e, st')
  | (inr _, st') => for_each xs body st'
  end.
Proof.
  unfold for_each. simpl. unfold mbind, Sess_bind.
  by destruct (body x st) as [[e|[]] st'].
Qed.

Lemma add_participants_spec (es : list string) n st :
  ∃ pt,
    for_each es (λ e, session_add_participant (mkParticipant None e n)) st =
      (inr (), mkSessionState (committed st)
                 (mkStore (activity_table (working st)) pt)) ∧
    ∀ k r, pt !! k = Some r →
           participant_table (working st) !! k = Some r ∨ r.2 = n.
Proof.
  revert st. induction es as [|e es IH]; intros st.
  - exists (participant_table (working st)). split; [|by left].
    by destruct st as [c [t pt]].
  - rewrite for_each_cons. unfold session_add_participant at 1. simpl.
    destruct (IH (mkSessionState (committed st)
                    (mkStore (activity_table (working st))
                       (<[next_rowid (participant_table (working st)) := (e, n)]>
                          (participant_table (working st))))))
      as (pt & Hrun & Hpt).
    exists pt. split; [exact Hrun|]. simpl in Hpt.
    intros k r Hk. destruct (Hpt k r Hk) as [Hold| ->]; [|by right].
    apply lookup_insert_Some in Hold as [[_ <-]|[_ Hold]]; [by right|by left].
Qed.

Lemma seed_one_spec n (data : ActivityDict) st :
  activity_table (working st) !! n = None →
  ∃ pt,
    seed_one (n, data) st =
      (inr (), mkSessionState (committed st)
                 (mkStore
                    (<[n := (dict_description data, dict_schedule data,
                             dict_max_participants data)]>
                       (activity_table (working st)))
                    pt)) ∧
    ∀ k r, pt !! k = Some r →
           participant_table (working st) !! k = Some r ∨ r.2 = n.
Proof.
  intros Hfree. unfold seed_one, mbind, Sess_bind.
  unfold session_add_activity at 1. simpl. rewrite Hfree.
  pose proof (add_participants_spec (dict_participants data) n
                (mkSessionState (committed st)
                   (mkStore (<[n := (dict_description data, dict_schedule data,
                                     dict_max_participants data)]>
                               (activity_table (working st)))
                      (participant_table (working st))))) as Hrest.
  simpl in Hrest. exact Hrest.
Qed.

Lemma seed_loop_spec (items : list (string * ActivityDict)) st :
  NoDup items.*1 →
  (∀ n, n ∈ items.*1 → activity_table (working st) !! n = None) →
  ∃ t pt,
    for_each items seed_one st =
      (inr (), mkSessionState (committed st) (mkStore t pt)) ∧
    (∀ n, n ∈ items.*1 → is_Some (t !! n)) ∧
    (∀ n, is_Some (activity_table (working st) !! n) → is_Some (t !! n)) ∧
    (∀ k r, pt !! k = Some r →
            participant_table (working st) !! k = Some r ∨ r.2 ∈ items.*1).
Proof.
  revert st. induction items as [|[n data] items IH]; intros st Hnd Hfree.
  - exists (activity_table (working st)), (participant_table (working st)).
    split; [by destruct st as [c [t pt]]|].
    split; [by intros n Hn%elem_of_nil|]. split; [done|]. by left.
  - apply NoDup_cons in Hnd as [Hn Hnd].
    destruct (seed_one_spec n data st) as (pt1 & Hone & Hpt1).
    { apply Hfree. simpl. left. }
    rewrite for_each_cons, Hone.
    destruct (IH (mkSessionState (committed st)
                    (mkStore
                       (<[n := (dict_description data, dict_schedule data,
                                dict_max_participants data)]>
                          (activity_table (working st)))
                       pt1)) Hnd)
      as (t & pt & Hrun & Hnew & Hold & Hpt).
    { intros n' Hn'. simpl. rewrite lookup_insert_ne.
      - apply Hfree. simpl. by right.
      - by intros ->. }
    exists t, pt. split; [exact Hrun|]. simpl in *. split; [|split].
    + intros n' [->|Hn']%elem_of_cons; [|by apply Hnew].
      apply Hold. rewrite lookup_insert_eq. by eexists.
    + intros n' Hn'. apply Hold.
      destruct (decide (n = n')) as [->|Hne].
      * rewrite lookup_insert_eq. by eexists.
      * by rewrite lookup_insert_ne.
    + intros k r Hk. destruct (Hpt k r Hk) as [Hk1|Hin].
      * destruct (Hpt1 k r Hk1) as [Hk0| <-]; [by left|right; left].
      * right. by right.
Qed.

Lemma NoDup_seed_names : NoDup seed.*1.
Proof. apply (bool_decide_unpack _). vm_compute. reflexivity. Qed.

(** Start-up on a store that already has an activity writes nothing. *)
Lemma init_db_with_seed_nonempty (db : Store) :
  activity_table db ≠ ∅ → init_db_with_seed db = (inr (), db).
Proof.
  intros Hne. unfold init_db_with_seed, with_session, select_activity_first.
  unfold mbind, Sess_bind, select_activity_all, mret, Sess_ret. simpl.
  destruct (map_to_list (activity_table db)) as [|row rows] eqn:Hrows; [|done].
  by apply map_to_list_empty_iff in Hrows.
Qed.

(** Start-up on a store without activities commits the whole catalog. *)
Lemma init_db_with_seed_empty (db : Store) :
  activity_table db = ∅ →
  ∃ t pt,
    init_db_with_seed db = (inr (), mkStore t pt) ∧
    (∀ n, n ∈ seed.*1 → is_Some (t !! n)) ∧
    (∀ k r, pt !! k = Some r →
            participant_table db !! k = Some r ∨ r.2 ∈ seed.*1).
Proof.
  intros Hempty.
  destruct (seed_loop_spec seed (mkSessionState db db) NoDup_seed_names)
    as (t & pt & Hrun & Hnew & _ & Hpt).
  { intros n _. simpl. by rewrite Hempty. }
  exists t, pt. split; [|by split].
  unfold init_db_with_seed, with_session, select_activity_first.
  unfold mbind, Sess_bind, select_activity_all, mret, Sess_ret. simpl.
  rewrite Hempty, map_to_list_empty. simpl. fold (for_each seed seed_one).
  rewrite Hrun. done.
Qed.

Lemma seeded_referential_integrity : referential_integrity seeded.
Proof.
  destruct (init_db_with_seed_empty empty_store eq_refl)
    as (t & pt & Hrun & Hnew & Hpt).
  unfold seeded. rewrite Hrun. intros k e a Hk. simpl in *.
  destruct (Hpt k _ Hk) as [Habs|Hin].
  - by rewrite lookup_empty in Habs.
  - by apply Hnew.
Qed.

End seeding.

(** * Invariants and algebraic properties *)

(** C7: every store reachable from the seeded initial store by signup,
    unregister and list-activities requests, served one after the other,
    has referential integrity: the activity_name of every Participant row
    is the name of an Activity row. *)
Theorem reachable_referential_integrity (db : Store) :
  reachable db → referential_integrity db.
Proof.
  induction 1 as [|r db Hreach IH]; [apply seeded_referential_integrity|].
  destruct r as [a e|a e|]; simpl.
  - rewrite signup_for_activity_unfold.
    destruct (activity_table db !! a) as [c|] eqn:Hc; [|done].
    destruct (head _); [done|]. simpl.
    intros k e' a' Hk. unfold activity_exists. simpl in Hk |- *.
    apply lookup_insert_Some in Hk as [[_ Heq]|[_ Hk]].
    + injection Heq as <- <-. by exists c.
    + by apply (IH k e').
  - rewrite unregister_from_activity_unfold.
    destruct (activity_table db !! a) as [c|] eqn:Hc; [|done].
    destruct (head _) as [row|]; [|done].
    destruct (id row) as [k0|]; [|done]. simpl.
    intros k e' a' Hk. unfold activity_exists. simpl in Hk |- *.
    apply lookup_delete_Some in Hk as [_ Hk]. by apply (IH k e').
  - unfold get_activities. by rewrite activities_as_dict_eq.
Qed.

Lemma reachable_referential_integrity_witness :
  referential_integrity
    (serve (Unregister "Chess Club" "michael@mergington.edu")
       (serve ListActivities
          (serve (Signup "Chess Club" "new@mergington.edu") seeded))).
Proof.
  apply reachable_referential_integrity.
  do 3 apply reachable_serve. apply reachable_seeded.
Defined.

(** C8: start-up on a store that already holds an Activity row writes
    nothing; start-up never fails; and a second start-up leaves the store
    exactly as the first one left it, whatever the store was. *)
Theorem init_db_with_seed_idempotent (db : Store) :
  (activity_table db ≠ ∅ → init_db_with_seed db = (inr (), db)) ∧
  (init_db_with_seed db).1 = inr () ∧
  init_db_with_seed (init_db_with_seed db).2 =
    (inr (), (init_db_with_seed db).2).
Proof.
  split; [apply init_db_with_seed_nonempty|].
  destruct (decide (activity_table db = ∅)) as [Hempty|Hne].
  - destruct (init_db_with_seed_empty db Hempty) as (t & pt & -> & Hnew & _).
    split; [done|]. simpl. apply init_db_with_seed_nonempty. simpl.
    intros ->. destruct (Hnew "Chess Club") as [c Hc].
    + vm_compute. left.
    + by rewrite lookup_empty in Hc.
  - rewrite (init_db_with_seed_nonempty db Hne). split; [done|]. simpl.
    by apply init_db_with_seed_nonempty.
Qed.

Lemma init_db_with_seed_idempotent_witness :
  init_db_with_seed full_store = (inr (), full_store) ∧
  init_db_with_seed seeded = (inr (), seeded).
Proof.
  split.
  - destruct (init_db_with_seed_idempotent full_store) as [Hskip _].
    apply Hskip. vm_compute. discriminate.
  - destruct (init_db_with_seed_idempotent empty_store) as (_ & _ & Htwice).
    exact Htwice.
Defined.

Lemma participant_rows_map_capacity (f : Z → Z) (db : Store) :
  participant_rows (map_capacity f db) = participant_rows db.
Proof. reflexivity. Qed.

(** C9: signup never looks at max_participants.  When [a] exists, (a, e) has
    no row and [a] already has at least max_participants rows, signup still
    succeeds and inserts the row; and rewriting every capacity of the store
    by any function [f] changes neither the answer of signup or unregister
    nor what they do to the tables. *)
Theorem signup_ignores_capacity (db : Store) (a e : string) :
  (∀ d s m,
     activity_table db !! a = Some (d, s, m) →
     ¬ registered db a e →
     (m ≤ participant_count db a)%Z →
     ∃ k,
       participant_table db !! k = None ∧
       signup_for_activity a e db =
         (inr (mkMessage ("Signed up " +:+ e +:+ " for " +:+ a)),
          mkStore (activity_table db) (<[k := (e, a)]> (participant_table db)))) ∧
  (∀ f,
     signup_for_activity a e (map_capacity f db) =
       ((signup_for_activity a e db).1,
        map_capacity f (signup_for_activity a e db).2) ∧
     unregister_from_activity a e (map_capacity f db) =
       ((unregister_from_activity a e db).1,
        map_capacity f (unregister_from_activity a e db).2)).
Proof.
  split.
  - intros d s m Hrow Hnew _. exists (next_rowid (participant_table db)).
    split; [apply next_rowid_fresh|].
    rewrite signup_for_activity_unfold, Hrow.
    apply first_same_pair_None in Hnew. by rewrite Hnew.
  - intros f. split.
    + rewrite !signup_for_activity_unfold, participant_rows_map_capacity.
      simpl. rewrite lookup_fmap.
      destruct (activity_table db !! a); simpl; [|done].
      by destruct (head _).
    + rewrite !unregister_from_activity_unfold, participant_rows_map_capacity.
      simpl. rewrite lookup_fmap.
      destruct (activity_table db !! a); simpl; [|done].
      destruct (head _) as [row|]; [|done]. by destruct (id row).
Qed.

Lemma signup_ignores_capacity_witness :
  (1 ≤ participant_count full_store "Chess Club")%Z ∧
  ∃ k,
    participant_table full_store !! k = None ∧
    signup_for_activity "Chess Club" "new@mergington.edu" full_store =
      (inr (mkMessage "Signed up new@mergington.edu for Chess Club"),
       mkStore (activity_table full_store)
         (<[k := ("new@mergington.edu", "Chess Club")]>
            (participant_table full_store))).
Proof.
  split; [vm_compute; discriminate|].
  apply (signup_ignores_capacity full_store "Chess Club" "new@mergington.edu")
    with (d := "Chess") (s := "Fridays") (m := 1%Z).
  - vm_compute. reflexivity.
  - apply first_same_pair_None. vm_compute. reflexivity.
  - vm_compute. discriminate.
Defined.

Lemma elem_of_registrations (db : Store) (a e : string) :
  (a, e) ∈ registrations db ↔ registered db a e.
Proof.
  unfold registrations, registered.
  rewrite elem_of_list_to_set, list_elem_of_fmap. split.
  - intros [[k [e' a']] [Heq Hin]]. simpl in Heq. injection Heq as -> ->.
    exists k. by apply elem_of_map_to_list.
  - intros [k Hk]. exists (k, (e, a)). split; [done|].
    by apply elem_of_map_to_list.
Qed.

(** C10: in a store with at most one row per (activity, email), in which
    [a] exists and (a, e) has no row, signup followed by unregister of the
    same pair both succeed, the pair is registered in between, every
    Activity row is the same after each step, the set of
    (activity_name, email) pairs of the participant table is back to what
    it was, and the store still has at most one row per pair after each
    step. *)
Theorem signup_unregister_roundtrip (db : Store) (a e : string) :
  pair_unique db →
  activity_exists db a →
  ¬ registered db a e →
  ∃ m1 db1 m2 db2,
    signup_for_activity a e db = (inr m1, db1) ∧
    unregister_from_activity a e db1 = (inr m2, db2) ∧
    (a, e) ∈ registrations db1 ∧
    activity_table db1 = activity_table db ∧
    activity_table db2 = activity_table db ∧
    registrations db2 = registrations db ∧
    pair_unique db1 ∧ pair_unique db2.
Proof.
  intros Huniq [c Hc] Hnew.
  pose proof (next_rowid_fresh (participant_table db)) as Hfresh.
  set (k := next_rowid (participant_table db)) in *.
  set (db1 := mkStore (activity_table db) (<[k := (e, a)]> (participant_table db))).
  assert (signup_for_activity a e db =
          (inr (mkMessage ("Signed up " +:+ e +:+ " for " +:+ a)), db1)) as H1.
  { rewrite signup_for_activity_unfold, Hc.
    apply first_same_pair_None in Hnew. by rewrite Hnew. }
  assert (registered db1 a e) as Hreg1.
  { exists k. simpl. apply lookup_insert_eq. }
  destruct (unregister_deletes_row a e db1) as (k' & Hk' & H2);
    [by exists c|done|].
  assert (k' = k) as ->.
  { simpl in Hk'. apply lookup_insert_Some in Hk' as [[-> _]|[_ Hold]]; [done|].
    exfalso. apply Hnew. by exists k'. }
  simpl in H2. rewrite delete_insert_id in H2 by done.
  eexists _, db1, _, _. split; [exact H1|]. split; [exact H2|].
  split; [by apply elem_of_registrations|].
  assert (mkStore (activity_table db) (participant_table db) = db) as ->
    by by destruct db.
  do 3 (split; [done|]). split; [|done].
  intros k1 k2 e' a' Hk1 Hk2. simpl in Hk1, Hk2.
  apply lookup_insert_Some in Hk1 as [[<- Heq1]|[Hne1 Hk1]];
    apply lookup_insert_Some in Hk2 as [[<- Heq2]|[Hne2 Hk2]].
  - done.
  - injection Heq1 as <- <-. exfalso. apply Hnew. by exists k2.
  - injection Heq2 as <- <-. exfalso. apply Hnew. by exists k1.
  - by apply (Huniq k1 k2 e' a').
Qed.

Lemma signup_unregister_roundtrip_witness :
  ∃ m1 db1 m2 db2,
    signup_for_activity "Chess Club" "new@mergington.edu" full_store =
      (inr m1, db1) ∧
    unregister_from_activity "Chess Club" "new@mergington.edu" db1 =
      (inr m2, db2) ∧
    ("Chess Club", "new@mergington.edu") ∈ registrations db1 ∧
    activity_table db1 = activity_table full_store ∧
    activity_table db2 = activity_table full_store ∧
    registrations db2 = registrations full_store ∧
    pair_unique db1 ∧ pair_unique db2.
Proof.
  apply (signup_unregister_roundtrip full_store "Chess Club" "new@mergington.edu").
  - intros k1 k2 e a H1 H2. simpl in H1, H2.
    apply lookup_singleton_Some in H1 as [<- _].
    apply lookup_singleton_Some in H2 as [<- _]. reflexivity.
  - vm_compute. eexists. reflexivity.
  - apply first_same_pair_None. vm_compute. reflexivity.
Defined.

(** The scenario of the specification on the seeded store: "Chess Club"
    starts with michael and daniel; after the signup of new it has three
    participants, after the unregistration of michael it has daniel and new
    only (the lists are in the store's scan order). *)
Example chess_club_scenario :
  let db1 := (signup_for_activity "Chess Club" "new@mergington.edu" seeded).2 in
  let db2 :=
    (unregister_from_activity "Chess Club" "michael@mergington.edu" db1).2 in
  (signup_for_activity "Chess Club" "new@mergington.edu" seeded).1 =
    inr (mkMessage "Signed up new@mergington.edu for Chess Club") ∧
  (unregister_from_activity "Chess Club" "michael@mergington.edu" db1).1 =
    inr (mkMessage "Unregistered michael@mergington.edu from Chess Club") ∧
  length (emails_of db1 "Chess Club") = 3 ∧
  emails_of db2 "Chess Club" = ["new@mergington.edu"; "daniel@mergington.edu"].
Proof. vm_compute. repeat split; reflexivity. Qed.

(** * Further properties of the handlers *)

Section handler_facts.
Implicit Types (db : Store) (a b e : string).

Lemma listing_eq db b :
  listing db b = (λ _, emails_of db b) <$> activity_table db !! b.
Proof.
  unfold listing, get_activities. rewrite activities_as_dict_eq. simpl.
  rewrite map_lookup_imap. by destruct (activity_table db !! b).
Qed.

(** The reported lists follow the scan of the participant table up to
    order: one more scanned row gives at most one more email. *)
Lemma emails_of_scan (t t' : gmap Z (string * string))
    (acts : gmap string (string * string * Z)) (k : Z) (e a b : string) :
  map_to_list t' ≡ₚ (k, (e, a)) :: map_to_list t →
  emails_of (mkStore acts t') b ≡ₚ
  if decide (b = a) then e :: emails_of (mkStore acts t) b
  else emails_of (mkStore acts t) b.
Proof.
  intros Hscan. unfold emails_of, participant_rows. simpl.
  rewrite Hscan. rewrite fmap_cons. simpl. rewrite filter_cons. simpl.
  destruct (decide (a = b)) as [->|Hne].
  - by rewrite decide_True.
  - rewrite decide_False; [done|]. by intros ->.
Qed.

Lemma signup_success_inv a e db (m : Message) (db' : Store) :
  signup_for_activity a e db = (inr m, db') →
  activity_exists db a ∧ ¬ registered db a e ∧
  m = mkMessage ("Signed up " +:+ e +:+ " for " +:+ a) ∧
  db' = mkStore (activity_table db)
          (<[next_rowid (participant_table db) := (e, a)]> (participant_table db)).
Proof.
  rewrite signup_for_activity_unfold. unfold activity_exists.
  destruct (activity_table db !! a) as [c|]; [|done].
  destruct (head _) eqn:Hhead; [done|].
  apply first_same_pair_None in Hhead.
  intros [= <- <-]. split; [by eexists|]. done.
Qed.

Lemma unregister_success_inv a e db (m : Message) (db' : Store) :
  unregister_from_activity a e db = (inr m, db') →
  activity_exists db a ∧
  m = mkMessage ("Unregistered " +:+ e +:+ " from " +:+ a) ∧
  ∃ k, participant_table db !! k = Some (e, a) ∧
       db' = mkStore (activity_table db) (delete k (participant_table db)).
Proof.
  rewrite unregister_from_activity_unfold. unfold activity_exists.
  destruct (activity_table db !! a) as [c|]; [|done].
  destruct (head _) as [row|] eqn:Hhead; [|done].
  apply first_same_pair_Some in Hhead as [k [-> Hk]]. simpl.
  intros [= <- <-]. split; [by eexists|]. split; [done|]. by exists k.
Qed.

End handler_facts.



(** X2: no request ever writes the activity table: whatever is asked and
    whatever the answer, the Activity rows after a signup, an unregister
    or a listing are the rows before it. *)
Theorem serve_keeps_activity_table (r : Request) (db : Store) :
  activity_table (serve r db) = activity_table db.
Proof.
  destruct r as [a e|a e|]; simpl.
  - rewrite signup_for_activity_unfold.
    destruct (activity_table db !! a); [|done]. by destruct (head _).
  - rewrite unregister_from_activity_unfold.
    destruct (activity_table db !! a); [|done].
    destruct (head _) as [row|]; [|done]. by destruct (id row).
  - unfold get_activities. by rewrite activities_as_dict_eq.
Qed.

(** X3: after a successful signup of [e] for [a], the list reported for
    [a] is the old list with one more [e], and the list of every other
    activity is the old one, both up to order. *)
Theorem signup_listing_grows (db : Store) (a e : string) (m : Message)
    (db' : Store) (b : string) (l : list string) :
  signup_for_activity a e db = (inr m, db') →
  listing db b = Some l →
  ∃ l', listing db' b = Some l' ∧
        l' ≡ₚ if decide (b = a) then e :: l else l.
Proof.
  intros (_ & _ & _ & ->)%signup_success_inv.
  rewrite !listing_eq. simpl.
  destruct (activity_table db !! b) as [c|]; [|done]. simpl.
  intros [= <-]. eexists. split; [done|].
  destruct db as [acts t]. simpl.
  apply emails_of_scan with (k := next_rowid t).
  apply map_to_list_insert, next_rowid_fresh.
Qed.

Lemma signup_listing_grows_witness :
  ∃ l', listing (signup_for_activity "Chess Club" "new@mergington.edu" seeded).2
          "Chess Club" = Some l' ∧
        l' ≡ₚ ["new@mergington.edu"; "daniel@mergington.edu";
               "michael@mergington.edu"].
Proof.
  apply (signup_listing_grows seeded "Chess Club" "new@mergington.edu"
           (mkMessage "Signed up new@mergington.edu for Chess Club")
           (signup_for_activity "Chess Club" "new@mergington.edu" seeded).2
           "Chess Club"
           ["daniel@mergington.edu"; "michael@mergington.edu"]).
  - vm_compute. reflexivity.
  - vm_compute. reflexivity.
Defined.

(** X4: after a successful unregister of [e] from [a], the list reported
    for [a] is the old list with exactly one [e] less, also when [e] was
    stored several times, and the list of every other activity is the old
    one, both up to order. *)
Theorem unregister_listing_shrinks (db : Store) (a e : string) (m : Message)
    (db' : Store) (b : string) (l : list string) :
  unregister_from_activity a e db = (inr m, db') →
  listing db b = Some l →
  ∃ l', listing db' b = Some l' ∧
        l ≡ₚ if decide (b = a) then e :: l' else l'.
Proof.
  intros (_ & _ & k & Hk & ->)%unregister_success_inv.
  rewrite !listing_eq. simpl.
  destruct (activity_table db !! b) as [c|]; [|done]. simpl.
  intros [= <-]. eexists. split; [done|].
  destruct db as [acts t]. simpl in *.
  apply emails_of_scan with (k := k).
  symmetry. by apply map_to_list_delete.
Qed.

Lemma unregister_listing_shrinks_witness :
  ∃ l', listing
          (unregister_from_activity "Chess Club" "michael@mergington.edu"
             twice_store).2 "Chess Club" = Some l' ∧
        ["michael@mergington.edu"; "michael@mergington.edu"] ≡ₚ
        "michael@mergington.edu" :: l'.
Proof.
  apply (unregister_listing_shrinks twice_store "Chess Club"
           "michael@mergington.edu"
           (mkMessage "Unregistered michael@mergington.edu from Chess Club")
           (unregister_from_activity "Chess Club" "michael@mergington.edu"
              twice_store).2
           "Chess Club"
           ["michael@mergington.edu"; "michael@mergington.edu"]).
  - vm_compute. reflexivity.
  - vm_compute. reflexivity.
Defined.

(** * Composition of the handlers *)

(** X5: unregister is not idempotent.  In a store with at most one row per
    (activity, email), a second unregister of the same pair right after a
    successful one fails with HTTP 400 "Student is not signed up for this
    activity" and changes nothing. *)
Theorem unregister_twice_rejected (db : Store) (a e : string) (m : Message)
    (db1 : Store) :
  pair_unique db →
  unregister_from_activity a e db = (inr m, db1) →
  unregister_from_activity a e db1 =
    (inl (HTTPError
            (mkHTTPException 400 "Student is not signed up for this activity")),
     db1).
Proof.
  intros Huniq ([c Hc] & _ & k & Hk & ->)%unregister_success_inv.
  rewrite unregister_from_activity_unfold. simpl. rewrite Hc.
  destruct (head _) as [row|] eqn:Hhead; [|done].
  apply first_same_pair_Some in Hhead as [k' [_ Hk']]. simpl in Hk'.
  apply lookup_delete_Some in Hk' as [Hne Hk'].
  by destruct Hne; apply (Huniq k k' e a).
Qed.

Lemma unregister_twice_rejected_witness :
  unregister_from_activity "Chess Club" "michael@mergington.edu"
    (unregister_from_activity "Chess Club" "michael@mergington.edu"
       full_store).2 =
    (inl (HTTPError
            (mkHTTPException 400 "Student is not signed up for this activity")),
     (unregister_from_activity "Chess Club" "michael@mergington.edu"
        full_store).2).
Proof.
  apply (unregister_twice_rejected full_store "Chess Club"
           "michael@mergington.edu"
           (mkMessage "Unregistered michael@mergington.edu from Chess Club")).
  - intros k1 k2 e a H1 H2. simpl in H1, H2.
    apply lookup_singleton_Some in H1 as [<- _].
    apply lookup_singleton_Some in H2 as [<- _]. reflexivity.
  - vm_compute. reflexivity.
Defined.

Lemma registrations_eq (db db' : Store) :
  (∀ a e, registered db' a e ↔ registered db a e) →
  registrations db' = registrations db.
Proof.
  intros Hsame. apply set_eq. intros [a e].
  by rewrite !elem_of_registrations.
Qed.

(** X6: the round trip in the other direction.  In a store with at most one
    row per (activity, email) in which [a] exists and (a, e) has a row,
    unregister followed by signup of the same pair both succeed, the pair is
    not registered in between, the Activity rows are untouched, the set of
    (activity_name, email) pairs is back to what it was and still has at
    most one row per pair.  (The row may come back under another id.) *)
Theorem unregister_signup_roundtrip (db : Store) (a e : string) :
  pair_unique db →
  activity_exists db a →
  registered db a e →
  ∃ m1 db1 m2 db2,
    unregister_from_activity a e db = (inr m1, db1) ∧
    signup_for_activity a e db1 = (inr m2, db2) ∧
    ¬ registered db1 a e ∧
    activity_table db2 = activity_table db ∧
    registrations db2 = registrations db ∧
    pair_unique db2.
Proof.
  intros Huniq Hact Hreg.
  destruct (unregister_deletes_row a e db Hact Hreg) as (k & Hk & H1).
  destruct Hact as [c Hc].
  set (t1 := delete k (participant_table db)).
  set (db1 := mkStore (activity_table db) t1) in *.
  assert (¬ registered db1 a e) as Hnot1.
  { intros [k' Hk']. simpl in Hk'. unfold t1 in Hk'.
    apply lookup_delete_Some in Hk' as [Hne Hk'].
    by destruct Hne; apply (Huniq k k' e a). }
  pose proof (next_rowid_fresh t1) as Hfresh.
  assert (signup_for_activity a e db1 =
          (inr (mkMessage ("Signed up " +:+ e +:+ " for " +:+ a)),
           mkStore (activity_table db) (<[next_rowid t1 := (e, a)]> t1)))
    as H2.
  { rewrite signup_for_activity_unfold. simpl. rewrite Hc.
    apply first_same_pair_None in Hnot1. by rewrite Hnot1. }
  eexists _, db1, _, _. split; [exact H1|]. split; [exact H2|].
  split; [exact Hnot1|]. split; [done|].
  assert (∀ k' e' a',
            <[next_rowid t1 := (e, a)]> t1 !! k' = Some (e', a') →
            (k' = next_rowid t1 ∧ e' = e ∧ a' = a) ∨
            (k' ≠ k ∧ k' ≠ next_rowid t1 ∧
             participant_table db !! k' = Some (e', a'))) as Hrows.
  { intros k' e' a' Hk'.
    apply lookup_insert_Some in Hk' as [[<- [= <- <-]]|[Hne Hk']];
      [by left|].
    unfold t1 in Hk'. apply lookup_delete_Some in Hk' as [Hnek Hk'].
    right. by repeat split; try done; apply not_eq_sym. }
  split.
  - apply registrations_eq. intros a' e'. unfold registered. simpl. split.
    + intros [k' Hk'].
      apply Hrows in Hk' as [(_ & -> & ->)|(_ & _ & Hk')]; [by exists k|].
      by exists k'.
    + intros [k' Hk']. destruct (decide (k' = k)) as [->|Hne].
      * rewrite Hk in Hk'. injection Hk' as <- <-.
        exists (next_rowid t1). apply lookup_insert_eq.
      * exists k'. rewrite lookup_insert_ne.
        -- unfold t1. by rewrite lookup_delete_ne.
        -- intros <-. subst t1.
           apply lookup_delete_None in Hfresh as [Heq|Hnone]; congruence.
  - intros k1 k2 e' a' Hk1 Hk2. simpl in Hk1, Hk2.
    apply Hrows in Hk1 as [(-> & -> & ->)|(Hk1k & Hk1n & Hk1)];
      apply Hrows in Hk2 as [(-> & Heq)|(Hk2k & Hk2n & Hk2)].
    + done.
    + by destruct Hk2k; apply (Huniq k2 k e a).
    + destruct Heq as [-> ->]. by destruct Hk1k; apply (Huniq k1 k e a).
    + by apply (Huniq k1 k2 e' a').
Qed.

Lemma unregister_signup_roundtrip_witness :
  ∃ m1 db1 m2 db2,
    unregister_from_activity "Chess Club" "michael@mergington.edu" full_store =
      (inr m1, db1) ∧
    signup_for_activity "Chess Club" "michael@mergington.edu" db1 =
      (inr m2, db2) ∧
    ¬ registered db1 "Chess Club" "michael@mergington.edu" ∧
    activity_table db2 = activity_table full_store ∧
    registrations db2 = registrations full_store ∧
    pair_unique db2.
Proof.
  apply (unregister_signup_roundtrip full_store "Chess Club"
           "michael@mergington.edu").
  - intros k1 k2 e a H1 H2. simpl in H1, H2.
    apply lookup_singleton_Some in H1 as [<- _].
    apply lookup_singleton_Some in H2 as [<- _]. reflexivity.
  - vm_compute. eexists. reflexivity.
  - exists 1%Z. vm_compute. reflexivity.
Defined.

(** * What seeding writes *)

Section seeding_exact.
Implicit Types (st : SessionState) (n e : string)
  (t : gmap Z (string * string)) (rs : list (string * string)).

Lemma insert_rows_subseteq rs t : t ⊆ insert_rows rs t.
Proof.
  revert t. induction rs as [|r rs IH]; intros t; simpl; [done|].
  etrans; [|apply IH]. apply insert_subseteq, next_rowid_fresh.
Qed.

Lemma insert_rows_size rs t : size (insert_rows rs t) = size t + length rs.
Proof.
  revert t. induction rs as [|r rs IH]; intros t; simpl; [lia|].
  rewrite IH, map_size_insert_None by apply next_rowid_fresh. lia.
Qed.

Lemma insert_rows_lookup rs t (k : Z) (r : string * string) :
  insert_rows rs t !! k = Some r → t !! k = Some r ∨ r ∈ rs.
Proof.
  revert t. induction rs as [|r0 rs IH]; intros t; simpl; [by left|].
  intros [Hk|Hin]%IH.
  - apply lookup_insert_Some in Hk as [[_ <-]|[_ Hk]]; [right; left|by left].
  - right. by right.
Qed.

Lemma insert_rows_elem rs t (r : string * string) :
  r ∈ rs → ∃ k, insert_rows rs t !! k = Some r.
Proof.
  revert t. induction rs as [|r0 rs IH]; intros t Hin.
  - by apply elem_of_nil in Hin.
  - apply elem_of_cons in Hin as [->|Hin]; simpl; [|by apply IH].
    exists (next_rowid t).
    eapply lookup_weaken; [apply lookup_insert_eq|apply insert_rows_subseteq].
Qed.

Lemma elem_of_seed_pairs (items : list (string * ActivityDict)) a e :
  (e, a) ∈ seed_pairs items ↔
  ∃ data, (a, data) ∈ items ∧ e ∈ dict_participants data.
Proof.
  unfold seed_pairs. rewrite list_elem_of_bind. split.
  - intros [[n data] [Hin Hitem]]. simpl in Hin.
    apply list_elem_of_fmap in Hin as [e' [[= -> ->] He']]. by exists data.
  - intros [data [Hitem He]]. exists (a, data). split; [|done].
    simpl. apply list_elem_of_fmap. by exists e.
Qed.

Lemma add_participants_exact (es : list string) n st :
  for_each es (λ e, session_add_participant (mkParticipant None e n)) st =
  (inr (), mkSessionState (committed st)
             (mkStore (activity_table (working st))
                (insert_rows ((λ e, (e, n)) <$> es)
                   (participant_table (working st))))).
Proof.
  revert st. induction es as [|e es IH]; intros st.
  - by destruct st as [c [acts t]].
  - rewrite for_each_cons. unfold session_add_participant at 1. simpl.
    by rewrite IH.
Qed.

Lemma seed_one_exact n (data : ActivityDict) st :
  activity_table (working st) !! n = None →
  seed_one (n, data) st =
  (inr (), mkSessionState (committed st)
             (mkStore (<[n := seed_columns data]> (activity_table (working st)))
                (insert_rows ((λ e, (e, n)) <$> dict_participants data)
                   (participant_table (working st))))).
Proof.
  intros Hfree. unfold seed_one, mbind, Sess_bind.
  unfold session_add_activity at 1. simpl. rewrite Hfree.
  by rewrite add_participants_exact.
Qed.

Lemma seed_loop_exact (items : list (string * ActivityDict)) st :
  NoDup items.*1 →
  (∀ n, n ∈ items.*1 → activity_table (working st) !! n = None) →
  for_each items seed_one st =
  (inr (), mkSessionState (committed st)
             (mkStore
                ((seed_columns <$> list_to_map items)
                   ∪ activity_table (working st))
                (insert_rows (seed_pairs items)
                   (participant_table (working st))))).
Proof.
  revert st. induction items as [|[n data] items IH]; intros st Hnd Hfree.
  - destruct st as [c [acts t]]. simpl.
    by rewrite fmap_empty, (left_id_L ∅ (∪)).
  - apply NoDup_cons in Hnd as [Hn Hnd].
    rewrite for_each_cons, seed_one_exact by (apply Hfree; simpl; left).
    rewrite IH; simpl; [|done|].
    + do 3 f_equal.
      * rewrite fmap_insert, <- insert_union_l, insert_union_r; [done|].
        rewrite lookup_fmap. by rewrite (not_elem_of_list_to_map_1 _ _ Hn).
      * unfold seed_pairs, insert_rows. simpl. by rewrite foldl_app.
    + intros n' Hn'. rewrite lookup_insert_ne.
      * apply Hfree. simpl. by right.
      * by intros ->.
Qed.

End seeding_exact.

Lemma first_startup_eq (db : Store) :
  activity_table db = ∅ →
  init_db_with_seed db =
  (inr (), mkStore (seed_columns <$> list_to_map seed)
             (insert_rows (seed_pairs seed) (participant_table db))).
Proof.
  intros Hempty.
  unfold init_db_with_seed, with_session, select_activity_first.
  unfold mbind, Sess_bind, select_activity_all, mret, Sess_ret.
  cbn [working committed fst snd].
  rewrite Hempty, map_to_list_empty.
  cbn [fmap list_fmap head]. fold (for_each seed seed_one).
  rewrite seed_loop_exact.
  - unfold session_commit. cbn [working committed].
    by rewrite Hempty, (right_id_L ∅ (∪)).
  - apply NoDup_seed_names.
  - intros n _. cbn [working]. by rewrite Hempty.
Qed.

(** X8: start-up on a store without Activity rows never fails and commits
    exactly the catalog: the activity table becomes the [seed] dictionary
    (name to description, schedule, capacity); every participant row that
    was there is kept under its id; 18 rows are added; and a pair is
    registered afterwards exactly when it was before or the catalog lists
    the email under that activity. *)
Theorem init_db_with_seed_fresh (db : Store) :
  activity_table db = ∅ →
  ∃ db',
    init_db_with_seed db = (inr (), db') ∧
    activity_table db' = seed_columns <$> list_to_map seed ∧
    participant_table db ⊆ participant_table db' ∧
    size (participant_table db') = size (participant_table db) + 18 ∧
    ∀ a e,
      registered db' a e ↔
      registered db a e ∨ ∃ data, (a, data) ∈ seed ∧ e ∈ dict_participants data.
Proof.
  intros Hempty.
  exists (mkStore (seed_columns <$> list_to_map seed)
            (insert_rows (seed_pairs seed) (participant_table db))).
  unfold registered. cbn [activity_table participant_table].
  split; [|split; [reflexivity|split; [|split]]].
  - by apply first_startup_eq.
  - apply insert_rows_subseteq.
  - rewrite insert_rows_size. reflexivity.
  - intros a e. split.
    + intros [k [Hk|Hin]%insert_rows_lookup]; [left; by exists k|right].
      by apply elem_of_seed_pairs.
    + intros [[k Hk]|Hin].
      * exists k. eapply lookup_weaken; [exact Hk|apply insert_rows_subseteq].
      * by apply insert_rows_elem, elem_of_seed_pairs.
Qed.

Lemma init_db_with_seed_fresh_witness :
  ∃ db',
    init_db_with_seed orphan_store = (inr (), db') ∧
    activity_table db' = seed_columns <$> list_to_map seed ∧
    participant_table orphan_store ⊆ participant_table db' ∧
    size (participant_table db') = size (participant_table orphan_store) + 18 ∧
    ∀ a e,
      registered db' a e ↔
      registered orphan_store a e ∨
      ∃ data, (a, data) ∈ seed ∧ e ∈ dict_participants data.
Proof.
  apply (init_db_with_seed_fresh orphan_store). reflexivity.
Defined.

(** * The invariants over the life of a deployment *)

Section invariants.
Implicit Types (db : Store) (a b e : string).

Lemma NoDup_fmap_agree {A B : Type} (f : A → B) (l : list A) (x y : A) :
  NoDup (f <$> l) → x ∈ l → y ∈ l → f x = f y → x = y.
Proof.
  intros Hnd [i Hi]%list_elem_of_lookup [j Hj]%list_elem_of_lookup Hxy.
  assert (i = j) as ->.
  { apply (NoDup_lookup (f <$> l) i j (f x)); [done| |].
    - by rewrite list_lookup_fmap, Hi.
    - by rewrite list_lookup_fmap, Hj, Hxy. }
  congruence.
Qed.

Lemma pair_unique_of_NoDup db :
  NoDup (map_to_list (participant_table db)).*2 → pair_unique db.
Proof.
  intros Hnd k1 k2 e a H1 H2.
  apply elem_of_map_to_list in H1, H2.
  by pose proof (NoDup_fmap_agree snd _ _ _ Hnd H1 H2 eq_refl) as [= ->].
Qed.

Lemma seeded_pair_unique : pair_unique seeded.
Proof.
  apply pair_unique_of_NoDup. apply (bool_decide_unpack _).
  vm_compute. reflexivity.
Qed.

Lemma serve_consistent (r : Request) db :
  consistent db → consistent (serve r db).
Proof.
  intros [Hri Huniq]. destruct r as [a e|a e|]; simpl.
  - rewrite signup_for_activity_unfold.
    destruct (activity_table db !! a) as [c|] eqn:Hc; [|done].
    destruct (head _) eqn:Hhead; [done|].
    apply first_same_pair_None in Hhead. simpl. split.
    + intros k e' a' Hk. unfold activity_exists. simpl in Hk |- *.
      apply lookup_insert_Some in Hk as [[_ [= <- <-]]|[_ Hk]];
        [by eexists|by apply (Hri k e')].
    + intros k1 k2 e' a' Hk1 Hk2. simpl in Hk1, Hk2.
      apply lookup_insert_Some in Hk1 as [[<- Heq1]|[_ Hk1]];
        apply lookup_insert_Some in Hk2 as [[<- Heq2]|[_ Hk2]].
      * done.
      * injection Heq1 as <- <-. destruct Hhead. by exists k2.
      * injection Heq2 as <- <-. destruct Hhead. by exists k1.
      * by apply (Huniq k1 k2 e' a').
  - rewrite unregister_from_activity_unfold.
    destruct (activity_table db !! a) as [c|] eqn:Hc; [|done].
    destruct (head _) as [row|]; [|done].
    destruct (id row) as [k0|]; [|done]. simpl. split.
    + intros k e' a' Hk. unfold activity_exists. simpl in Hk |- *.
      apply lookup_delete_Some in Hk as [_ Hk]. by apply (Hri k e').
    + intros k1 k2 e' a' Hk1 Hk2. simpl in Hk1, Hk2.
      apply lookup_delete_Some in Hk1 as [_ Hk1].
      apply lookup_delete_Some in Hk2 as [_ Hk2].
      by apply (Huniq k1 k2 e' a').
  - unfold get_activities. by rewrite activities_as_dict_eq.
Qed.

Lemma on_startup_consistent db :
  consistent db → consistent (on_startup db).2.
Proof.
  intros [Hri Huniq]. unfold on_startup.
  destruct (decide (activity_table db = ∅)) as [Hempty|Hne].
  - assert (participant_table db = ∅) as Hnone.
    { apply map_empty. intros k.
      destruct (participant_table db !! k) as [[e a]|] eqn:Hk; [|done].
      destruct (Hri k e a Hk) as [c Hc]. by rewrite Hempty in Hc. }
    assert (db = empty_store) as ->.
    { destruct db as [acts t]. simpl in *. by subst. }
    split; [apply seeded_referential_integrity|apply seeded_pair_unique].
  - by rewrite (init_db_with_seed_nonempty db Hne).
Qed.

End invariants.

(** X7: referential integrity and per-(activity, email) uniqueness survive
    everything a deployment goes through: from a store that has both, any
    sequence of start-ups ([on_startup]) and of signup, unregister and
    list-activities requests leads to a store that has both.  In
    particular this holds from an empty database. *)
Theorem run_consistent (evs : list Event) (db : Store) :
  consistent db → consistent (run evs db).
Proof.
  revert db. induction evs as [|ev evs IH]; intros db Hdb; [done|].
  simpl. apply IH. destruct ev as [|r]; simpl.
  - by apply on_startup_consistent.
  - by apply serve_consistent.
Qed.

Lemma run_consistent_witness :
  consistent
    (run [Startup;
          Serve (Signup "Chess Club" "new@mergington.edu");
          Startup;
          Serve (Unregister "Chess Club" "michael@mergington.edu");
          Serve ListActivities]
       empty_store).
Proof.
  apply run_consistent. split.
  - intros k e a Hk. simpl in Hk. rewrite lookup_empty in Hk. discriminate Hk.
  - intros k1 k2 e a Hk. simpl in Hk. rewrite lookup_empty in Hk.
    discriminate Hk.
Defined.



(** * Requests about different pairs *)

Section isolation.
Implicit Types (db : Store) (a b e : string).

Lemma signup_outcome a e db :
  (∃ x, signup_for_activity a e db = (inl x, db)) ∨
  (¬ registered db a e ∧
   signup_for_activity a e db =
     (inr (mkMessage ("Signed up " +:+ e +:+ " for " +:+ a)),
      mkStore (activity_table db)
        (<[next_rowid (participant_table db) := (e, a)]>
           (participant_table db)))).
Proof.
  rewrite signup_for_activity_unfold.
  destruct (activity_table db !! a); [|left; by eexists].
  destruct (head _) eqn:Hhead; [left; by eexists|].
  right. by apply first_same_pair_None in Hhead.
Qed.

Lemma unregister_outcome a e db :
  (∃ x, unregister_from_activity a e db = (inl x, db)) ∨
  (∃ k, participant_table db !! k = Some (e, a) ∧
        unregister_from_activity a e db =
          (inr (mkMessage ("Unregistered " +:+ e +:+ " from " +:+ a)),
           mkStore (activity_table db) (delete k (participant_table db)))).
Proof.
  rewrite unregister_from_activity_unfold.
  destruct (activity_table db !! a); [|left; by eexists].
  destruct (head _) as [row|] eqn:Hhead; [|left; by eexists].
  apply first_same_pair_Some in Hhead as [k [-> Hk]]. right. by exists k.
Qed.

Lemma serve_other_registered (r : Request) db a e :
  request_pair r ≠ Some (a, e) →
  registered (serve r db) a e ↔ registered db a e.
Proof.
  intros Hother. destruct r as [a' e'|a' e'|]; simpl in *.
  - destruct (signup_outcome a' e' db) as [[x ->]|[_ ->]]; [done|].
    unfold registered. simpl. split.
    + intros [k Hk]. apply lookup_insert_Some in Hk as [[_ Heq]|[_ Hk]].
      * injection Heq as -> ->. done.
      * by exists k.
    + intros [k Hk]. exists k. rewrite lookup_insert_ne; [done|].
      intros <-. by rewrite next_rowid_fresh in Hk.
  - destruct (unregister_outcome a' e' db) as [[x ->]|(k0 & Hk0 & ->)]; [done|].
    unfold registered. simpl. split.
    + intros [k Hk]. apply lookup_delete_Some in Hk as [_ Hk]. by exists k.
    + intros [k Hk]. exists k. rewrite lookup_delete_ne; [done|].
      intros <-. rewrite Hk0 in Hk. injection Hk as -> ->. done.
  - unfold get_activities. by rewrite activities_as_dict_eq.
Qed.

Lemma serve_activity_table (r : Request) db :
  activity_table (serve r db) = activity_table db.
Proof.
  destruct r as [a e|a e|]; simpl.
  - by destruct (signup_outcome a e db) as [[x ->]|[_ ->]].
  - by destruct (unregister_outcome a e db) as [[x ->]|(k & _ & ->)].
  - unfold get_activities. by rewrite activities_as_dict_eq.
Qed.

(** The answers of the two handlers depend on the store only through the
    existence of the activity and the registration of the pair. *)
Lemma answers_ext a e db db' :
  activity_table db' !! a = activity_table db !! a →
  (registered db' a e ↔ registered db a e) →
  (signup_for_activity a e db').1 = (signup_for_activity a e db).1 ∧
  (unregister_from_activity a e db').1 = (unregister_from_activity a e db).1.
Proof.
  intros Hact Hreg.
  rewrite !signup_for_activity_unfold, !unregister_from_activity_unfold, Hact.
  destruct (activity_table db !! a) as [c|]; [|done].
  destruct (head (filter _ (participant_rows db'))) as [row'|] eqn:H';
    destruct (head (filter _ (participant_rows db))) as [row|] eqn:H.
  - apply first_same_pair_Some in H' as [k' [-> _]].
    by apply first_same_pair_Some in H as [k [-> _]].
  - apply first_same_pair_Some in H' as [k' [_ Hk']].
    apply first_same_pair_None in H. destruct H. apply Hreg. by exists k'.
  - apply first_same_pair_Some in H as [k [_ Hk]].
    apply first_same_pair_None in H'. destruct H'. apply Hreg. by exists k.
  - done.
Qed.

End isolation.

(** X10: a request about one (activity, email) pair leaves every other pair
    alone.  After serving a signup or unregister for another pair, or a
    listing, the pair (a, e) is registered exactly when it was before, and
    signup and unregister for (a, e) give the same answer (message or
    error) as they would have given before. *)
Theorem serve_other_pair (r : Request) (db : Store) (a e : string) :
  request_pair r ≠ Some (a, e) →
  (registered (serve r db) a e ↔ registered db a e) ∧
  (signup_for_activity a e (serve r db)).1 = (signup_for_activity a e db).1 ∧
  (unregister_from_activity a e (serve r db)).1 =
    (unregister_from_activity a e db).1.
Proof.
  intros Hother.
  pose proof (serve_other_registered r db a e Hother) as Hreg.
  split; [exact Hreg|]. apply answers_ext; [|exact Hreg].
  by rewrite serve_activity_table.
Qed.

Lemma serve_other_pair_witness :
  (registered
     (serve (Signup "Chess Club" "new@mergington.edu") seeded)
     "Chess Club" "michael@mergington.edu" ↔
   registered seeded "Chess Club" "michael@mergington.edu") ∧
  (signup_for_activity "Chess Club" "michael@mergington.edu"
     (serve (Signup "Chess Club" "new@mergington.edu") seeded)).1 =
    (signup_for_activity "Chess Club" "michael@mergington.edu" seeded).1 ∧
  (unregister_from_activity "Chess Club" "michael@mergington.edu"
     (serve (Signup "Chess Club" "new@mergington.edu") seeded)).1 =
    (unregister_from_activity "Chess Club" "michael@mergington.edu" seeded).1.
Proof.
  apply (serve_other_pair (Signup "Chess Club" "new@mergington.edu") seeded
           "Chess Club" "michael@mergington.edu").
  simpl. discriminate.
Defined.

(** * A first start-up followed by a listing *)

Section catalog.
Implicit Types (db : Store) (a b e n : string)
  (t : gmap Z (string * string)) (rs : list (string * string)).

Lemma emails_of_insert_rows (acts : gmap string (string * string * Z)) rs t b :
  emails_of (mkStore acts (insert_rows rs t)) b ≡ₚ
  (fst <$> filter (λ r, r.2 = b) rs) ++ emails_of (mkStore acts t) b.
Proof.
  revert t. induction rs as [|[e a] rs IH]; intros t; [done|].
  change (insert_rows ((e, a) :: rs) t)
    with (insert_rows rs (<[next_rowid t := (e, a)]> t)).
  rewrite IH.
  rewrite (emails_of_scan t (<[next_rowid t := (e, a)]> t) acts
             (next_rowid t) e a b)
    by apply map_to_list_insert, next_rowid_fresh.
  rewrite filter_cons. simpl. destruct (decide (a = b)) as [->|Hne].
  - rewrite decide_True by done. simpl. by rewrite Permutation_middle.
  - rewrite decide_False; [done|]. by intros ->.
Qed.

Lemma emails_of_none (acts : gmap string (string * string * Z)) t b :
  (∀ k e a, t !! k = Some (e, a) → a ≠ b) →
  emails_of (mkStore acts t) b = [].
Proof.
  intros Hother. apply elem_of_nil_inv. intros e.
  rewrite elem_of_emails_of. intros [k Hk]. by apply (Hother k e b).
Qed.

Lemma filter_pairs_of_activity (es : list string) n b :
  fst <$> filter (λ r : string * string, r.2 = b) ((λ e, (e, n)) <$> es) =
  if decide (n = b) then es else [].
Proof.
  destruct (decide (n = b)) as [->|Hne].
  - induction es as [|e es IH]; [done|].
    rewrite fmap_cons, filter_cons_True by done.
    rewrite fmap_cons. simpl. by rewrite IH.
  - induction es as [|e es IH]; [done|].
    by rewrite fmap_cons, filter_cons_False.
Qed.

Lemma filter_seed_pairs_absent (items : list (string * ActivityDict)) b :
  b ∉ items.*1 →
  fst <$> filter (λ r : string * string, r.2 = b) (seed_pairs items) = [].
Proof.
  induction items as [|[n data] items IH]; intros Hb; [done|].
  apply not_elem_of_cons in Hb as [Hne Hb]. simpl in Hne.
  unfold seed_pairs. rewrite bind_cons, filter_app, fmap_app. simpl.
  rewrite filter_pairs_of_activity, decide_False by done.
  by apply IH.
Qed.

Lemma filter_seed_pairs (items : list (string * ActivityDict)) b
    (data : ActivityDict) :
  NoDup items.*1 →
  (b, data) ∈ items →
  fst <$> filter (λ r : string * string, r.2 = b) (seed_pairs items) =
  dict_participants data.
Proof.
  induction items as [|[n d] items IH]; intros Hnd Hin.
  - by apply elem_of_nil in Hin.
  - apply NoDup_cons in Hnd as [Hn Hnd].
    unfold seed_pairs. rewrite bind_cons, filter_app, fmap_app. simpl.
    rewrite filter_pairs_of_activity.
    apply elem_of_cons in Hin as [[= -> ->]|Hin].
    + rewrite decide_True by done.
      fold (seed_pairs items).
      rewrite filter_seed_pairs_absent by done. apply app_nil_r.
    + rewrite decide_False.
      * by apply IH.
      * intros ->. apply Hn. simpl. apply list_elem_of_fmap.
        by exists (b, data).
Qed.

End catalog.

(** X11: seeding and listing round-trip.  After a start-up on a store
    without Activity rows, in which no stray participant row names a
    catalog activity, list-activities returns the [seed] dictionary: its
    keys are the catalog names, and each name maps to the catalog's
    description, schedule and capacity and to the catalog's participants,
    up to order. *)
Theorem fresh_start_lists_catalog (db : Store) :
  activity_table db = ∅ →
  (∀ k e a, participant_table db !! k = Some (e, a) → a ∉ seed.*1) →
  ∃ r,
    get_activities (on_startup db).2 = (inr r, (on_startup db).2) ∧
    dom r = list_to_set seed.*1 ∧
    ∀ n data,
      (n, data) ∈ seed →
      ∃ ps,
        r !! n = Some (mkActivityDict (dict_description data)
                         (dict_schedule data) (dict_max_participants data) ps) ∧
        ps ≡ₚ dict_participants data.
Proof.
  intros Hempty Hstray. unfold on_startup, get_activities.
  rewrite (first_startup_eq db Hempty). cbn [snd].
  rewrite activities_as_dict_eq. cbn [activity_table].
  eexists. split; [reflexivity|]. split.
  - rewrite <- (dom_list_to_map_L (M := gmap string) seed).
    rewrite <- (dom_fmap_L seed_columns (list_to_map seed)).
    apply set_eq. intros n. rewrite !elem_of_dom, map_lookup_imap.
    destruct ((seed_columns <$> list_to_map seed) !! n);
      split; intros [? ?]; by eauto.
  - intros n data Hin.
    exists (emails_of
              (mkStore (seed_columns <$> list_to_map seed)
                 (insert_rows (seed_pairs seed) (participant_table db))) n).
    split.
    + rewrite map_lookup_imap, lookup_fmap.
      rewrite (elem_of_list_to_map_1 seed n data NoDup_seed_names Hin).
      reflexivity.
    + rewrite emails_of_insert_rows.
      rewrite (filter_seed_pairs seed n data NoDup_seed_names Hin).
      rewrite emails_of_none; [by rewrite app_nil_r|].
      intros k e a Hk ->. apply (Hstray k e n Hk).
      apply list_elem_of_fmap. by exists (n, data).
Qed.

Lemma fresh_start_lists_catalog_witness :
  ∃ r,
    get_activities (on_startup empty_store).2 =
      (inr r, (on_startup empty_store).2) ∧
    dom r = list_to_set seed.*1 ∧
    ∀ n data,
      (n, data) ∈ seed →
      ∃ ps,
        r !! n = Some (mkActivityDict (dict_description data)
                         (dict_schedule data) (dict_max_participants data) ps) ∧
        ps ≡ₚ dict_participants data.
Proof.
  apply (fresh_start_lists_catalog empty_store).
  - reflexivity.
  - intros k e a Hk. cbn [empty_store participant_table] in Hk.
    rewrite lookup_empty in Hk. discriminate Hk.
Defined.
